(** * betterpem: a shallow embedding of [ParsePEMs] and the [ParsedPEMs] accessors

    The Go package [betterpem] (main.go) normalises an input of type
    [interface{}] into bytes ([intoBytes]), walks the PEM blocks found in
    these bytes ([ParsePEMs]) and hands each recognized block to the matching
    parser of [crypto/x509].  The result, [ParsedPEMs], is a queue the caller
    pops with [Interface], [MustCertificate], [MustRSAPrivateKey] and
    [MustECPrivateKey].

    [encoding/pem], [crypto/x509] and [io] belong to Go's standard library:
    they are collaborators of the package, taken here as the fields of a
    record ([Library]); the package's own code is translated function by
    function. *)

From Equations Require Import Equations.
From Stdlib.Strings Require Import String Byte.
From Stdlib Require Import List Arith Lia Bool.
Import ListNotations.

Set Implicit Arguments.

(** ** Data *)

(** [pem.Block]: the block type of the BEGIN line, the optional headers and
    the decoded body.  ([Type] is a keyword of Rocq, hence [Type_].) *)
Record Block : Type := mkBlock {
  Type_ : string;
  Headers : list (string * string);
  Bytes : list byte
}.

Section Model.

(** The structures built by the standard library: [*x509.Certificate],
    [*rsa.PrivateKey], [*ecdsa.PrivateKey]; [OtherKey] stands for the further
    key types [x509.ParsePKCS8PrivateKey] may hand back ([ed25519.PrivateKey],
    [*ecdh.PrivateKey]).  [ExtError] are the [error] values the standard
    library produces, [Foreign] the Go values that are neither [[]byte],
    [string] nor an [io.Reader]. *)
Variables Certificate RSAPrivateKey ECPrivateKey OtherKey : Type.
Variable ExtError : Type.
Variable Foreign : Type.

(** A Go [interface{}] as stored in [ParsedPEMs.objs]: the value together with
    its dynamic type, which is all a type assertion can observe. *)
Inductive any : Type :=
| AnyCertificate (c : Certificate)
| AnyRSAPrivateKey (k : RSAPrivateKey)
| AnyECPrivateKey (k : ECPrivateKey)
| AnyOther (k : OtherKey).

(** Go's [error] as this package meets it: its two sentinel errors and the
    errors handed over by the standard library, which are values of their own
    (neither [io] nor [crypto/x509] can name the package's sentinels). *)
Inductive error : Type :=
| ErrPemUnderlyingFormatError
| ErrPemIsUnsupportedType
| External (e : ExtError).

(** An [io.Reader] as [io.ReadAll] observes it: the chunks its successive
    [Read] calls deliver, and how the stream ends, with [io.EOF] ([None]) or
    with a read failure. *)
Record Reader : Type := mkReader {
  chunks : list (list byte);
  failure : option ExtError
}.

(** [io.ReadAll]: reads until EOF or an error and returns the data read
    together with the error; EOF is not reported as an error. *)
Definition ReadAll (r : Reader) : list byte * option ExtError :=
  (concat (chunks r), failure r).

(** The argument [pemInt interface{}] of [intoBytes] and [ParsePEMs], by the
    cases of the type switch. *)
Inductive input : Type :=
| InBytes (v : list byte)
| InString (v : string)
| InReader (v : Reader)
| InOther (v : Foreign).

(** The collaborators from [encoding/pem] and [crypto/x509].  [Decode] is
    [pem.Decode]: it returns the next block and the remainder of the input, or
    no block and the input itself; when it finds a block the remainder is a
    proper suffix of the data, hence shorter, which is what makes the loop of
    [ParsePEMs] terminate. *)
Record Library : Type := mkLibrary {
  Decode : list byte -> option Block * list byte;
  Decode_rest_shorter :
    forall data der rest,
      Decode data = (Some der, rest) -> length rest < length data;
  ParseCertificate : list byte -> Certificate + ExtError;
  ParsePKCS1PrivateKey : list byte -> RSAPrivateKey + ExtError;
  ParseECPrivateKey : list byte -> ECPrivateKey + ExtError;
  ParsePKCS8PrivateKey : list byte -> any + ExtError
}.

(** [intoBytes] (main.go, lines 23-39).  Go returns the pair [(bytes, err)];
    a [nil] slice is the empty list. *)
Definition intoBytes (pemInt : input) : list byte * option error :=
  match pemInt with
  | InBytes v => (v, None)
  | InString v => (list_byte_of_string v, None)
  | InReader v =>
      match ReadAll v with
      | (_, Some err) => ([], Some (External err))
      | (pemBytes, None) => (pemBytes, None)
      end
  | InOther _ => ([], Some ErrPemUnderlyingFormatError)
  end.

(** [ParsedPEMs] (main.go, lines 42-44). *)
Record ParsedPEMs : Type := mkParsedPEMs { objs : list any }.

(** What a Go panic carries: the run-time error of indexing a slice out of
    range, or the string the accessors build with
    [fmt.Sprintf("%#v<suffix>", obj)], kept as the object and the suffix. *)
Inductive panic_value : Type :=
| IndexOutOfRange (index len : nat)
| IsNotA (obj : any) (suffix : string).

(** The outcome of a method call: it returns, or it panics. *)
Inductive outcome (A : Type) : Type :=
| Return (a : A)
| Panic (v : panic_value).
Arguments Panic {A} v.

(** The methods have a pointer receiver and assign to [p.objs]: each takes
    the receiver's state and gives back the outcome and the state after the
    call. *)

(** [Length] (main.go, lines 47-49). *)
Definition Length (p : ParsedPEMs) : nat := length (objs p).

(** [Interface] (main.go, lines 52-56): [p.objs[0]] panics on an empty
    slice, before anything is assigned. *)
Definition Interface (p : ParsedPEMs) : outcome any * ParsedPEMs :=
  match objs p with
  | [] => (Panic (IndexOutOfRange 0 0), p)
  | ret :: tl => (Return ret, mkParsedPEMs tl)
  end.

(** [MustCertificate] (main.go, lines 61-68): the type assertion comes
    first, the panic on [!ok] next, and only then [p.objs = p.objs[1:]]. *)
Definition MustCertificate (p : ParsedPEMs) : outcome Certificate * ParsedPEMs :=
  match objs p with
  | [] => (Panic (IndexOutOfRange 0 0), p)
  | AnyCertificate r :: tl => (Return r, mkParsedPEMs tl)
  | obj :: _ => (Panic (IsNotA obj " is not an *x509.Certificate"%string), p)
  end.

(** [MustRSAPrivateKey] (main.go, lines 73-80). *)
Definition MustRSAPrivateKey (p : ParsedPEMs) : outcome RSAPrivateKey * ParsedPEMs :=
  match objs p with
  | [] => (Panic (IndexOutOfRange 0 0), p)
  | AnyRSAPrivateKey r :: tl => (Return r, mkParsedPEMs tl)
  | obj :: _ => (Panic (IsNotA obj " is not an rsa.PrivateKey"%string), p)
  end.

(** [MustECPrivateKey] (main.go, lines 85-92). *)
Definition MustECPrivateKey (p : ParsedPEMs) : outcome ECPrivateKey * ParsedPEMs :=
  match objs p with
  | [] => (Panic (IndexOutOfRange 0 0), p)
  | AnyECPrivateKey r :: tl => (Return r, mkParsedPEMs tl)
  | obj :: _ => (Panic (IsNotA obj " is not an ecdsa.PrivateKey"%string), p)
  end.

(** The typed accessors of [ParsedPEMs] side by side.  Each result is stored
    back into an [interface{}] so that the three share one type. *)
Definition as_any (A : Type) (store : A -> any)
           (r : outcome A * ParsedPEMs) : outcome any * ParsedPEMs :=
  match r with
  | (Return a, p) => (Return (store a), p)
  | (Panic v, p) => (Panic v, p)
  end.

Definition typed_accessors : list (ParsedPEMs -> outcome any * ParsedPEMs) :=
  [ fun p => as_any AnyCertificate (MustCertificate p);
    fun p => as_any AnyRSAPrivateKey (MustRSAPrivateKey p);
    fun p => as_any AnyECPrivateKey (MustECPrivateKey p) ].

Variable lib : Library.

(** The [switch der.Type] of [ParsePEMs] (main.go, lines 117-143): the new
    value of [objs], or the error of the early [return]. *)
Definition ParsePEMs_switch (der : Block) (objs : list any) : list any + error :=
  if (Type_ der =? "CERTIFICATE")%string then
    match ParseCertificate lib (Bytes der) with
    | inr err => inr (External err)
    | inl r => inl (objs ++ [AnyCertificate r])
    end
  else if (Type_ der =? "RSA PRIVATE KEY")%string then
    match ParsePKCS1PrivateKey lib (Bytes der) with
    | inr err => inr (External err)
    | inl r => inl (objs ++ [AnyRSAPrivateKey r])
    end
  else if (Type_ der =? "EC PRIVATE KEY")%string then
    match ParseECPrivateKey lib (Bytes der) with
    | inr err => inr (External err)
    | inl r => inl (objs ++ [AnyECPrivateKey r])
    end
  else if (Type_ der =? "PRIVATE KEY")%string then
    match ParsePKCS8PrivateKey lib (Bytes der) with
    | inr err => inr (External err)
    | inl r => inl (objs ++ [r])
    end
  else inl objs.

(** The [for] loop of [ParsePEMs] (main.go, lines 112-144): it ends by
    [break] with the accumulated [objs], or by an early [return] with the
    error of a parser. *)
Equations? ParsePEMs_loop (rest : list byte) (objs : list any) : list any + error
  by wf (length rest) lt :=
ParsePEMs_loop rest objs with Equations.Prop.Logic.inspect (Decode lib rest) := {
  | exist _ (None, _) _ := inl objs;
  | exist _ (Some der, rest') Hdec with ParsePEMs_switch der objs := {
      | inr err := inr err;
      | inl objs' := ParsePEMs_loop rest' objs' } }.
Proof. eapply Decode_rest_shorter; eassumption. Qed.

(** [ParsePEMs] (main.go, lines 104-149).  [ParsedPEMs{}] is the struct
    whose [objs] is [nil]. *)
Definition ParsePEMs (pemInt : input) : ParsedPEMs * option error :=
  match intoBytes pemInt with
  | (_, Some err) => (mkParsedPEMs [], Some err)
  | (pemBytes, None) =>
      match ParsePEMs_loop pemBytes [] with
      | inr err => (mkParsedPEMs [], Some err)
      | inl objs =>
          if 0 <? length objs then (mkParsedPEMs objs, None)
          else (mkParsedPEMs [], Some ErrPemIsUnsupportedType)
      end
  end.

(** ** The input as a list of blocks *)

(** The blocks [pem.Decode] finds in [data], in the order in which the loop
    of [ParsePEMs] meets them. *)
Equations? blocks (data : list byte) : list Block by wf (length data) lt :=
blocks data with Equations.Prop.Logic.inspect (Decode lib data) := {
  | exist _ (None, _) _ := [];
  | exist _ (Some der, rest) Hdec := der :: blocks rest }.
Proof. eapply Decode_rest_shorter; eassumption. Qed.

(** The block types of the dispatch table. *)
Definition recognized (block_type : string) : bool :=
  existsb (String.eqb block_type)
    ["CERTIFICATE"; "RSA PRIVATE KEY"; "EC PRIVATE KEY"; "PRIVATE KEY"]%string.

(** The dispatch table as the specification words it: the parser a block
    type selects and the variant its result is filed under; [None] for a
    block type outside the table. *)
Definition parse_block (der : Block) : option (any + ExtError) :=
  if (Type_ der =? "CERTIFICATE")%string then
    Some (match ParseCertificate lib (Bytes der) with
          | inl c => inl (AnyCertificate c) | inr e => inr e end)
  else if (Type_ der =? "RSA PRIVATE KEY")%string then
    Some (match ParsePKCS1PrivateKey lib (Bytes der) with
          | inl k => inl (AnyRSAPrivateKey k) | inr e => inr e end)
  else if (Type_ der =? "EC PRIVATE KEY")%string then
    Some (match ParseECPrivateKey lib (Bytes der) with
          | inl k => inl (AnyECPrivateKey k) | inr e => inr e end)
  else if (Type_ der =? "PRIVATE KEY")%string then
    Some (ParsePKCS8PrivateKey lib (Bytes der))
  else None.

(** The loop of [ParsePEMs] replayed over a list of blocks. *)
Fixpoint collect (bs : list Block) (objs : list any) : list any + error :=
  match bs with
  | [] => inl objs
  | der :: bs' =>
      match ParsePEMs_switch der objs with
      | inr err => inr err
      | inl objs' => collect bs' objs'
      end
  end.

(** The last lines of [ParsePEMs] (main.go, lines 145-148), applied to the
    outcome of the loop. *)
Definition finish (r : list any + error) : ParsedPEMs * option error :=
  match r with
  | inr err => (mkParsedPEMs [], Some err)
  | inl objs =>
      if 0 <? length objs then (mkParsedPEMs objs, None)
      else (mkParsedPEMs [], Some ErrPemIsUnsupportedType)
  end.

(** [n] calls of [Interface] one after the other on the same receiver, as
    the underrun test makes two: the objects returned before the first
    panic, that panic if there was one, and the receiver at the end. *)
Fixpoint Interface_times (n : nat) (p : ParsedPEMs)
  : list any * option panic_value * ParsedPEMs :=
  match n with
  | 0 => ([], None, p)
  | S n' =>
      match Interface p with
      | (Panic v, p') => ([], Some v, p')
      | (Return ret, p') =>
          let '(rets, v, p'') := Interface_times n' p' in (ret :: rets, v, p'')
      end
  end.

End Model.

Arguments ErrPemUnderlyingFormatError {ExtError}.
Arguments ErrPemIsUnsupportedType {ExtError}.
Arguments InBytes {ExtError Foreign} v.
Arguments InString {ExtError Foreign} v.
Arguments InOther {ExtError Foreign} v.
Arguments InReader {ExtError Foreign} v.
Arguments AnyCertificate {Certificate RSAPrivateKey ECPrivateKey OtherKey} c.
Arguments AnyRSAPrivateKey {Certificate RSAPrivateKey ECPrivateKey OtherKey} k.
Arguments AnyECPrivateKey {Certificate RSAPrivateKey ECPrivateKey OtherKey} k.
Arguments AnyOther {Certificate RSAPrivateKey ECPrivateKey OtherKey} k.
Arguments IndexOutOfRange {Certificate RSAPrivateKey ECPrivateKey OtherKey} index len.
Arguments IsNotA {Certificate RSAPrivateKey ECPrivateKey OtherKey} obj suffix.
Arguments Return {Certificate RSAPrivateKey ECPrivateKey OtherKey A} a.
Arguments Panic {Certificate RSAPrivateKey ECPrivateKey OtherKey A} v.

(** ** A small library to run the code on

    A stand-in for [encoding/pem] and [crypto/x509] on which the functions
    above evaluate: a block is two bytes, a letter for its type and one byte
    of body. *)
Module Sample.

Definition type_of_tag (tag : byte) : option string :=
  match tag with
  | "C"%byte => Some "CERTIFICATE"%string
  | "R"%byte => Some "RSA PRIVATE KEY"%string
  | "E"%byte => Some "EC PRIVATE KEY"%string
  | "P"%byte => Some "PRIVATE KEY"%string
  | "Q"%byte => Some "CERTIFICATE REQUEST"%string
  | _ => None
  end.

Definition Decode (data : list byte) : option Block * list byte :=
  match data with
  | tag :: body :: rest =>
      match type_of_tag tag with
      | Some t => (Some (mkBlock t [] [body]), rest)
      | None => (None, data)
      end
  | _ => (None, data)
  end.

(** The parsers accept every body but ["!"]; a parsed object is its body. *)
Definition parse (der : list byte) : list byte + string :=
  match der with
  | ["!"%byte] => inr "asn1: syntax error"%string
  | _ => inl der
  end.

Definition obj : Type := any (list byte) (list byte) (list byte) (list byte).

(** A PKCS#8 body ["r"] holds an RSA key, ["e"] an EC key, any other body a
    key of another algorithm. *)
Definition ParsePKCS8PrivateKey (der : list byte) : obj + string :=
  match der with
  | ["!"%byte] => inr "asn1: syntax error"%string
  | ["r"%byte] => inl (AnyRSAPrivateKey der)
  | ["e"%byte] => inl (AnyECPrivateKey der)
  | _ => inl (AnyOther der)
  end.

Definition lib : Library (list byte) (list byte) (list byte) (list byte) string.
Proof.
  refine (@mkLibrary _ _ _ _ _ Decode _ parse parse parse ParsePKCS8PrivateKey).
  intros data der rest. unfold Decode.
  destruct data as [|tag [|body tl]]; try discriminate.
  destruct (type_of_tag tag); intros H; inversion H; simpl; lia.
Defined.

(** The input arguments of the examples: a text, and a stream that delivers
    the bytes of a text in two chunks. *)
Definition text (s : string) : input string unit := InString s.




Definition block (block_type : string) (body : byte) : Block :=
  mkBlock block_type [] [body].

Definition results (l : list obj) : ParsedPEMs _ _ _ _ := mkParsedPEMs l.

End Sample.

(** ** The earlier form of the package

    Before [ParsedPEMs] the package returned a slice of [ParsedPEM], one
    object each, read by index and never consumed; [intoBytes] took byte
    slices and strings only and told a wrong argument by the [nil] it had
    left in [pemBytes]. *)
Module V1.
Section Model.

Variables Certificate RSAPrivateKey ECPrivateKey OtherKey : Type.
Variable ExtError : Type.
Variable Foreign : Type.

Local Abbreviation obj_t := (any Certificate RSAPrivateKey ECPrivateKey OtherKey).
Local Abbreviation outcome_t :=
  (outcome Certificate RSAPrivateKey ECPrivateKey OtherKey).

(** The argument [pemInt interface{}].  Here the code compares a byte slice
    with [nil], so a slice is [None] when it is [nil]; [Foreign] holds every
    other Go value, the [io.Reader]s among them. *)
Inductive input : Type :=
| InBytes (v : option (list byte))
| InString (v : string)
| InOther (v : Foreign).

(** The bytes a slice holds; the [nil] slice holds none. *)
Definition elements (b : option (list byte)) : list byte :=
  match b with
  | Some l => l
  | None => []
  end.

(** [intoBytes] of the earlier form (lines 22-34).  The conversion
    [[]byte(s)] yields a slice that is not [nil], also for the empty
    string. *)
Definition intoBytes (pemInt : input) : option (list byte) * option (error ExtError) :=
  let pemBytes : option (list byte) := None in
  let pemBytes := match pemInt with InBytes b => b | _ => pemBytes end in
  let pemBytes :=
    match pemInt with
    | InString s => Some (list_byte_of_string s)
    | _ => pemBytes
    end in
  match pemBytes with
  | None => (None, Some ErrPemUnderlyingFormatError)
  | Some _ => (pemBytes, None)
  end.

(** [ParsedPEM] (lines 37-39). *)
Record ParsedPEM : Type := mkParsedPEM { obj : obj_t }.

(** The methods have a value receiver and assign nothing. *)

(** [Interface] (lines 42-44). *)
Definition Interface (p : ParsedPEM) : obj_t := obj p.

(** [MustCertificate] (lines 49-55). *)
Definition MustCertificate (p : ParsedPEM) : outcome_t Certificate :=
  match obj p with
  | AnyCertificate r => Return r
  | o => Panic (IsNotA o " is not an *x509.Certificate"%string)
  end.

(** [MustRSAPrivateKey] (lines 60-66). *)
Definition MustRSAPrivateKey (p : ParsedPEM) : outcome_t RSAPrivateKey :=
  match obj p with
  | AnyRSAPrivateKey r => Return r
  | o => Panic (IsNotA o " is not an rsa.PrivateKey"%string)
  end.

(** [MustECPrivateKey] (lines 71-77). *)
Definition MustECPrivateKey (p : ParsedPEM) : outcome_t ECPrivateKey :=
  match obj p with
  | AnyECPrivateKey r => Return r
  | o => Panic (IsNotA o " is not an ecdsa.PrivateKey"%string)
  end.

(** An outcome of the present loop as the earlier loop would hold it: each
    object in a [ParsedPEM] of its own. *)
Definition wrapped (r : list obj_t + error ExtError)
  : list ParsedPEM + error ExtError :=
  match r with
  | inl l => inl (map mkParsedPEM l)
  | inr err => inr err
  end.

Variable lib : Library Certificate RSAPrivateKey ECPrivateKey OtherKey ExtError.

(** The [switch der.Type] of [ParsePEM] (lines 102-128). *)
Definition ParsePEM_switch (der : Block) (objs : list ParsedPEM)
  : list ParsedPEM + error ExtError :=
  if (Type_ der =? "CERTIFICATE")%string then
    match ParseCertificate lib (Bytes der) with
    | inr err => inr (External err)
    | inl r => inl (objs ++ [mkParsedPEM (AnyCertificate r)])
    end
  else if (Type_ der =? "RSA PRIVATE KEY")%string then
    match ParsePKCS1PrivateKey lib (Bytes der) with
    | inr err => inr (External err)
    | inl r => inl (objs ++ [mkParsedPEM (AnyRSAPrivateKey r)])
    end
  else if (Type_ der =? "EC PRIVATE KEY")%string then
    match ParseECPrivateKey lib (Bytes der) with
    | inr err => inr (External err)
    | inl r => inl (objs ++ [mkParsedPEM (AnyECPrivateKey r)])
    end
  else if (Type_ der =? "PRIVATE KEY")%string then
    match ParsePKCS8PrivateKey lib (Bytes der) with
    | inr err => inr (External err)
    | inl r => inl (objs ++ [mkParsedPEM r])
    end
  else inl objs.

(** The [for] loop of [ParsePEM] (lines 97-129). *)
Equations? ParsePEM_loop (rest : list byte) (objs : list ParsedPEM)
  : list ParsedPEM + error ExtError
  by wf (length rest) lt :=
ParsePEM_loop rest objs with Equations.Prop.Logic.inspect (Decode lib rest) := {
  | exist _ (None, _) _ := inl objs;
  | exist _ (Some der, rest') Hdec with ParsePEM_switch der objs := {
      | inr err := inr err;
      | inl objs' := ParsePEM_loop rest' objs' } }.
Proof. eapply Decode_rest_shorter; eassumption. Qed.

(** [ParsePEM] (lines 89-134).  The slice returned is [nil] beside an
    error; nothing compares it with [nil], so it is the empty list. *)
Definition ParsePEM (pemInt : input) : list ParsedPEM * option (error ExtError) :=
  match intoBytes pemInt with
  | (_, Some err) => ([], Some err)
  | (pemBytes, None) =>
      match ParsePEM_loop (elements pemBytes) [] with
      | inr err => ([], Some err)
      | inl objs =>
          if 0 <? length objs then (objs, None)
          else ([], Some ErrPemIsUnsupportedType)
      end
  end.

End Model.

Arguments InBytes {Foreign} v.
Arguments InString {Foreign} v.
Arguments InOther {Foreign} v.

End V1.

(** ** Properties *)

Section Properties.

Variables Certificate RSAPrivateKey ECPrivateKey OtherKey : Type.
Variable ExtError : Type.
Variable Foreign : Type.
Variable lib : Library Certificate RSAPrivateKey ECPrivateKey OtherKey ExtError.

Local Abbreviation obj := (any Certificate RSAPrivateKey ECPrivateKey OtherKey).

(** *** Unfolding the two recursions on the remaining input *)

Lemma blocks_clause (data : list byte) (d : option Block * list byte)
      (H : Decode lib data = d) :
  blocks_unfold_clause_1 lib data (exist _ d H) =
  match d with
  | (None, _) => []
  | (Some der, rest) => der :: blocks lib rest
  end.
Proof. destruct d as [[der|] rest]; reflexivity. Qed.

Lemma blocks_eq (data : list byte) :
  blocks lib data =
  match Decode lib data with
  | (None, _) => []
  | (Some der, rest) => der :: blocks lib rest
  end.
Proof. simp blocks. apply blocks_clause. Qed.

Lemma ParsePEMs_loop_clause (rest : list byte) (objs : list obj)
      (d : option Block * list byte) (H : Decode lib rest = d) :
  ParsePEMs_loop_unfold_clause_1 lib rest (exist _ d H) objs =
  match d with
  | (None, _) => inl objs
  | (Some der, rest') =>
      match ParsePEMs_switch lib der objs with
      | inr err => inr err
      | inl objs' => ParsePEMs_loop lib rest' objs'
      end
  end.
Proof.
  destruct d as [[der|] rest']; [|reflexivity].
  simpl. destruct (ParsePEMs_switch lib der objs); reflexivity.
Qed.

Lemma ParsePEMs_loop_eq (rest : list byte) (objs : list obj) :
  ParsePEMs_loop lib rest objs =
  match Decode lib rest with
  | (None, _) => inl objs
  | (Some der, rest') =>
      match ParsePEMs_switch lib der objs with
      | inr err => inr err
      | inl objs' => ParsePEMs_loop lib rest' objs'
      end
  end.
Proof. simp ParsePEMs_loop. apply ParsePEMs_loop_clause. Qed.

(** The loop over the bytes is the loop over the blocks they hold. *)
Lemma ParsePEMs_loop_collect (rest : list byte) (objs : list obj) :
  ParsePEMs_loop lib rest objs = collect lib (blocks lib rest) objs.
Proof.
  remember (length rest) as n eqn:Hn.
  revert rest objs Hn.
  induction n as [n IH] using lt_wf_ind; intros rest objs Hn.
  rewrite ParsePEMs_loop_eq, blocks_eq.
  destruct (Decode lib rest) as [[der|] rest'] eqn:Hdec; [|reflexivity].
  simpl. destruct (ParsePEMs_switch lib der objs) as [objs'|err]; [|reflexivity].
  apply (IH (length rest')); [|reflexivity].
  subst n. eapply Decode_rest_shorter; eassumption.
Qed.

(** *** The switch and the dispatch table *)

Lemma ParsePEMs_switch_table (der : Block) (objs : list obj) :
  ParsePEMs_switch lib der objs =
  match parse_block lib der with
  | None => inl objs
  | Some (inl o) => inl (objs ++ [o])
  | Some (inr e) => inr (External e)
  end.
Proof.
  unfold ParsePEMs_switch, parse_block.
  repeat match goal with
         | |- context [if ?b then _ else _] => destruct b
         | |- context [match ?f lib (Bytes der) with _ => _ end] =>
             destruct (f lib (Bytes der))
         end; reflexivity.
Qed.

Lemma parse_block_None (der : Block) :
  parse_block lib der = None <-> recognized (Type_ der) = false.
Proof.
  unfold parse_block, recognized. simpl.
  repeat match goal with
         | |- context [(?a =? ?b)%string] => destruct (a =? b)%string
         end; simpl; split; congruence.
Qed.


(** *** The loop over a list of blocks *)

Lemma collect_app (l1 l2 : list Block) (objs : list obj) :
  collect lib (l1 ++ l2) objs =
  match collect lib l1 objs with
  | inl objs' => collect lib l2 objs'
  | inr err => inr err
  end.
Proof.
  revert objs. induction l1 as [|der l1 IH]; intros objs; simpl; [reflexivity|].
  destruct (ParsePEMs_switch lib der objs); [apply IH | reflexivity].
Qed.

(** What a completed loop has accumulated: the parse of each recognized
    block, appended in the order of the blocks. *)
Lemma collect_inl (bs : list Block) (objs objs' : list obj) :
  collect lib bs objs = inl objs' ->
  exists new,
    objs' = objs ++ new /\
    map (fun o => Some (inl o)) new =
    map (parse_block lib) (filter (fun der => recognized (Type_ der)) bs).
Proof.
  revert objs. induction bs as [|der bs IH]; intros objs H; simpl in H.
  - exists []. inversion H. rewrite app_nil_r. split; reflexivity.
  - rewrite ParsePEMs_switch_table in H. simpl.
    destruct (parse_block lib der) as [[o|e]|] eqn:Hp.
    + destruct (recognized (Type_ der)) eqn:Hr.
      * destruct (IH _ H) as (new & -> & Hmap).
        exists (o :: new). rewrite <- app_assoc. simpl.
        rewrite Hp, Hmap. split; reflexivity.
      * apply parse_block_None in Hr. congruence.
    + discriminate.
    + apply parse_block_None in Hp. rewrite Hp. apply IH, H.
Qed.

(** An aborted loop stopped at the first block whose parser failed. *)
Lemma collect_inr (bs : list Block) (objs : list obj) (err : error ExtError) :
  collect lib bs objs = inr err ->
  exists pre der post e,
    bs = pre ++ der :: post /\
    (forall d x, In d pre -> parse_block lib d <> Some (inr x)) /\
    parse_block lib der = Some (inr e) /\
    err = External e.
Proof.
  revert objs. induction bs as [|der bs IH]; intros objs H; simpl in H.
  - discriminate.
  - rewrite ParsePEMs_switch_table in H.
    destruct (parse_block lib der) as [[o|e]|] eqn:Hp.
    + destruct (IH _ H) as (pre & d & post & e & -> & Hpre & Hd & ->).
      exists (der :: pre), d, post, e. repeat split; trivial.
      intros d' x [<-|Hin]; [congruence | apply Hpre, Hin].
    + exists [], der, bs, e. inversion H. repeat split; trivial.
      intros d x [].
    + destruct (IH _ H) as (pre & d & post & e & -> & Hpre & Hd & ->).
      exists (der :: pre), d, post, e. repeat split; trivial.
      intros d' x [<-|Hin]; [congruence | apply Hpre, Hin].
Qed.

(** A loop all of whose blocks parse runs to its end. *)
Lemma collect_no_failure (bs : list Block) (objs : list obj) :
  (forall d x, In d bs -> parse_block lib d <> Some (inr x)) ->
  exists objs', collect lib bs objs = inl objs'.
Proof.
  intros H. destruct (collect lib bs objs) as [objs'|err] eqn:Hc.
  - exists objs'. reflexivity.
  - apply collect_inr in Hc.
    destruct Hc as (pre & der & post & e & -> & _ & Hd & _).
    exfalso. apply (H der e); [|exact Hd].
    apply in_or_app. right. left. reflexivity.
Qed.


(** [ParsePEMs] in terms of the blocks of its input. *)
Lemma ParsePEMs_blocks (pemInt : input ExtError Foreign) :
  ParsePEMs lib pemInt =
  match intoBytes pemInt with
  | (_, Some err) => (mkParsedPEMs [], Some err)
  | (pemBytes, None) => finish (collect lib (blocks lib pemBytes) [])
  end.
Proof.
  unfold ParsePEMs. destruct (intoBytes pemInt) as [pemBytes [err|]]; [reflexivity|].
  rewrite ParsePEMs_loop_collect. reflexivity.
Qed.

Lemma finish_ok (r : list obj + error ExtError) (p : ParsedPEMs _ _ _ _) :
  finish r = (p, None) -> r = inl (objs p) /\ 0 < Length p.
Proof.
  unfold finish, Length. destruct r as [l|err]; [|intros H; discriminate H].
  destruct (0 <? length l) eqn:Hl; [|intros H; discriminate H].
  intros H. inversion H. simpl. apply Nat.ltb_lt in Hl. split; trivial.
Qed.



(** *** The claims about [ParsePEMs] *)


(** C2.  When the input was turned into bytes and some recognized block of
    it fails its parser, [ParsePEMs] returns the error of the first block
    that fails, just as the parser gave it, together with the empty
    [ParsedPEMs{}]: whatever the blocks before it had accumulated is gone. *)
Theorem ParsePEMs_parser_failure_aborts
        (pemInt : input ExtError Foreign) (pemBytes : list byte)
        (der : Block) (e : ExtError) :
  intoBytes pemInt = (pemBytes, None) ->
  In der (blocks lib pemBytes) ->
  parse_block lib der = Some (inr e) ->
  exists pre der' post e',
    blocks lib pemBytes = pre ++ der' :: post /\
    (forall d x, In d pre -> parse_block lib d <> Some (inr x)) /\
    parse_block lib der' = Some (inr e') /\
    (exists acc, collect lib pre [] = inl acc) /\
    ParsePEMs lib pemInt = (mkParsedPEMs [], Some (External e')).
Proof.
  intros Hb Hin Hfail. rewrite ParsePEMs_blocks, Hb.
  destruct (collect lib (blocks lib pemBytes) []) as [l|err] eqn:Hc.
  - exfalso. apply in_split in Hin. destruct Hin as (l1 & l2 & Hsplit).
    rewrite Hsplit, collect_app in Hc.
    destruct (collect lib l1 []) as [acc|]; [|discriminate Hc].
    simpl in Hc. rewrite ParsePEMs_switch_table, Hfail in Hc. discriminate Hc.
  - apply collect_inr in Hc.
    destruct Hc as (pre & der' & post & e' & Hsplit & Hpre & Hd & ->).
    exists pre, der', post, e'. repeat split; try assumption.
    apply collect_no_failure, Hpre.
Qed.

(** C5.  The switch matches the block type exactly: each of the four
    recognized types sends the body to its parser and appends the parsed
    object, or returns the parser's error; a block of any other type leaves
    [objs] as it is and raises no error.  Hence an input gives the same
    outcome as if the unrecognized block were not there, and succeeds
    whenever the other blocks parse and at least one of them is recognized. *)
Theorem ParsePEMs_dispatch_by_type (der : Block) (objs : list obj) :
  (Type_ der = "CERTIFICATE"%string ->
   ParsePEMs_switch lib der objs =
   match ParseCertificate lib (Bytes der) with
   | inl r => inl (objs ++ [AnyCertificate r])
   | inr err => inr (External err)
   end)
  /\
  (Type_ der = "RSA PRIVATE KEY"%string ->
   ParsePEMs_switch lib der objs =
   match ParsePKCS1PrivateKey lib (Bytes der) with
   | inl r => inl (objs ++ [AnyRSAPrivateKey r])
   | inr err => inr (External err)
   end)
  /\
  (Type_ der = "EC PRIVATE KEY"%string ->
   ParsePEMs_switch lib der objs =
   match ParseECPrivateKey lib (Bytes der) with
   | inl r => inl (objs ++ [AnyECPrivateKey r])
   | inr err => inr (External err)
   end)
  /\
  (Type_ der = "PRIVATE KEY"%string ->
   ParsePEMs_switch lib der objs =
   match ParsePKCS8PrivateKey lib (Bytes der) with
   | inl r => inl (objs ++ [r])
   | inr err => inr (External err)
   end)
  /\
  (Type_ der <> "CERTIFICATE"%string ->
   Type_ der <> "RSA PRIVATE KEY"%string ->
   Type_ der <> "EC PRIVATE KEY"%string ->
   Type_ der <> "PRIVATE KEY"%string ->
   ParsePEMs_switch lib der objs = inl objs /\
   forall (pemInt : input ExtError Foreign) pemBytes pre post,
     intoBytes pemInt = (pemBytes, None) ->
     blocks lib pemBytes = pre ++ der :: post ->
     ParsePEMs lib pemInt = finish (collect lib (pre ++ post) []) /\
     forall o objs',
       collect lib (pre ++ post) [] = inl (o :: objs') ->
       ParsePEMs lib pemInt = (mkParsedPEMs (o :: objs'), None)).
Proof.
  split; [|split; [|split; [|split]]].
  1-4: intros H; unfold ParsePEMs_switch; rewrite H; simpl;
       match goal with
       | |- context [match ?f lib ?b with _ => _ end] => destruct (f lib b)
       end; reflexivity.
  intros N1 N2 N3 N4.
  assert (Hs : forall acc, ParsePEMs_switch lib der acc = inl acc).
  { intros acc. unfold ParsePEMs_switch.
    rewrite (proj2 (String.eqb_neq _ _) N1), (proj2 (String.eqb_neq _ _) N2),
      (proj2 (String.eqb_neq _ _) N3), (proj2 (String.eqb_neq _ _) N4).
    reflexivity. }
  split; [apply Hs|].
  intros pemInt pemBytes pre post Hb Hsplit.
  rewrite ParsePEMs_blocks, Hb, Hsplit, !collect_app.
  destruct (collect lib pre []) as [acc|err]; simpl.
  - rewrite Hs. split; [reflexivity|].
    intros o objs' ->. reflexivity.
  - split; [reflexivity | discriminate].
Qed.

(** C6.  The objects of a successful [ParsePEMs] are the parsed objects of
    the recognized blocks of the input, one for each of them and in the
    order in which the blocks stand in the input. *)
Theorem ParsePEMs_preserves_order
        (pemInt : input ExtError Foreign)
        (p : ParsedPEMs Certificate RSAPrivateKey ECPrivateKey OtherKey) :
  ParsePEMs lib pemInt = (p, None) ->
  exists pemBytes,
    intoBytes pemInt = (pemBytes, None) /\
    map (fun o => Some (inl o)) (objs p) =
    map (parse_block lib)
        (filter (fun der => recognized (Type_ der)) (blocks lib pemBytes)).
Proof.
  intros H. rewrite ParsePEMs_blocks in H.
  destruct (intoBytes pemInt) as [pemBytes [err|]]; [discriminate H|].
  exists pemBytes. split; [reflexivity|].
  apply finish_ok in H. destruct H as [H _].
  apply collect_inl in H. destruct H as (new & Hnew & Hmap).
  simpl in Hnew. subst new. exact Hmap.
Qed.


(** *** The claims about [intoBytes] and the accessors *)

(** C7.  [intoBytes] returns a byte slice as it is and the bytes of a string;
    it reads a stream to its end and returns all the bytes of its chunks, or
    the read failure as the error; any other value gives
    [ErrPemUnderlyingFormatError] (the specification's
    UnsupportedInputFormat). *)
Theorem intoBytes_by_shape :
  (forall v : list byte,
     intoBytes (InBytes v : input ExtError Foreign) = (v, None))
  /\
  (forall v : string,
     intoBytes (InString v : input ExtError Foreign) =
       (list_byte_of_string v, None) /\
     string_of_list_byte (list_byte_of_string v) = v)
  /\
  (forall r : Reader ExtError,
     intoBytes (InReader r : input ExtError Foreign) =
     match failure r with
     | None => (concat (chunks r), None)
     | Some e => ([], Some (External e))
     end)
  /\
  (forall v : Foreign,
     intoBytes (InOther v : input ExtError Foreign) =
       ([], Some ErrPemUnderlyingFormatError)).
Proof.
  split; [|split; [|split]]; intros v; simpl.
  - reflexivity.
  - split; [reflexivity | apply string_of_list_byte_of_string].
  - unfold ReadAll. destruct (failure v); reflexivity.
  - reflexivity.
Qed.

(** C4.  On a [ParsedPEMs] of length 0 every consumption method panics with
    the run-time error of [p.objs[0]], index 0 out of range for length 0 (the
    specification's EmptyResultSet), and the receiver stays as it is. *)
Theorem consume_empty_panics
        (p : ParsedPEMs Certificate RSAPrivateKey ECPrivateKey OtherKey) :
  Length p = 0 ->
  Interface p = (Panic (IndexOutOfRange 0 0), p) /\
  MustCertificate p = (Panic (IndexOutOfRange 0 0), p) /\
  MustRSAPrivateKey p = (Panic (IndexOutOfRange 0 0), p) /\
  MustECPrivateKey p = (Panic (IndexOutOfRange 0 0), p).
Proof.
  unfold Length, Interface, MustCertificate, MustRSAPrivateKey, MustECPrivateKey.
  destruct (objs p) as [|o tl]; [|discriminate].
  intros _. repeat split.
Qed.

(** C3, as the code has it.  When the front object is not of the type a
    typed accessor asserts, the accessor panics with its "is not a" message
    about that object, and the receiver is left as it was: the front object
    is still there and the length is the same. *)
Theorem typed_accessor_mismatch_keeps_front
        (p : ParsedPEMs Certificate RSAPrivateKey ECPrivateKey OtherKey)
        (o : obj) (tl : list obj) :
  objs p = o :: tl ->
  ((forall c, o <> AnyCertificate c) ->
   MustCertificate p = (Panic (IsNotA o " is not an *x509.Certificate"), p))
  /\
  ((forall k, o <> AnyRSAPrivateKey k) ->
   MustRSAPrivateKey p = (Panic (IsNotA o " is not an rsa.PrivateKey"), p))
  /\
  ((forall k, o <> AnyECPrivateKey k) ->
   MustECPrivateKey p = (Panic (IsNotA o " is not an ecdsa.PrivateKey"), p)).
Proof.
  intros Hp. unfold MustCertificate, MustRSAPrivateKey, MustECPrivateKey.
  rewrite Hp.
  split; [|split]; intros Hne; destruct o as [c|k|k|k];
    solve [reflexivity | exfalso; eapply Hne; reflexivity].
Qed.

(** C9, as the code has it.  There are three typed accessors, for
    certificates, RSA keys and EC keys: on a front object of its type each
    removes the front and returns the value.  [Interface] removes and
    returns any front object.  No typed accessor accepts an object of
    another type, such as the further keys a PRIVATE KEY block can hold:
    each of the three panics on it and leaves it in place. *)
Theorem typed_accessors_cover_three_types (tl : list obj) :
  (forall c, MustCertificate (mkParsedPEMs (AnyCertificate c :: tl)) =
             (Return c, mkParsedPEMs tl))
  /\
  (forall k, MustRSAPrivateKey (mkParsedPEMs (AnyRSAPrivateKey k :: tl)) =
             (Return k, mkParsedPEMs tl))
  /\
  (forall k, MustECPrivateKey (mkParsedPEMs (AnyECPrivateKey k :: tl)) =
             (Return k, mkParsedPEMs tl))
  /\
  (forall o : obj, Interface (mkParsedPEMs (o :: tl)) =
                   (Return o, mkParsedPEMs tl))
  /\
  (forall (k : OtherKey) acc,
     In acc (typed_accessors Certificate RSAPrivateKey ECPrivateKey OtherKey) ->
     exists v, acc (mkParsedPEMs (AnyOther k :: tl)) =
               (Panic v, mkParsedPEMs (AnyOther k :: tl))).
Proof.
  repeat (split; [reflexivity|]).
  intros k acc [<-|[<-|[<-|[]]]]; eexists; reflexivity.
Qed.


End Properties.

(** ** The code at work on the sample library *)

(** The scenario of the test suite: a certificate, its RSA key, a
    certificate request and an EC key; a PKCS#8 block is added at the end. *)
Example sample_run :
  ParsePEMs Sample.lib (Sample.text "C1R2Q3E4Pe") =
  (Sample.results
     [AnyCertificate ["1"%byte]; AnyRSAPrivateKey ["2"%byte];
      AnyECPrivateKey ["4"%byte]; AnyECPrivateKey ["e"%byte]], None).
Proof. vm_compute. reflexivity. Qed.

Example sample_run_malformed :
  ParsePEMs Sample.lib (Sample.text "C1R!E3") =
  (Sample.results [], Some (External "asn1: syntax error"%string)).
Proof. vm_compute. reflexivity. Qed.

Example sample_run_unsupported :
  ParsePEMs Sample.lib (Sample.text "Q1Q2") =
  (Sample.results [], Some ErrPemIsUnsupportedType).
Proof. vm_compute. reflexivity. Qed.


Lemma ParsePEMs_parser_failure_aborts_witness :
  exists pre der post e,
    blocks Sample.lib (list_byte_of_string "C1R!E3") = pre ++ der :: post /\
    (forall d x, In d pre -> parse_block Sample.lib d <> Some (inr x)) /\
    parse_block Sample.lib der = Some (inr e) /\
    (exists acc, collect Sample.lib pre [] = inl acc) /\
    ParsePEMs Sample.lib (Sample.text "C1R!E3") =
      (Sample.results [], Some (External e)).
Proof.
  apply (@ParsePEMs_parser_failure_aborts _ _ _ _ _ _
           Sample.lib (Sample.text "C1R!E3") (list_byte_of_string "C1R!E3")
           (Sample.block "RSA PRIVATE KEY" "!") "asn1: syntax error"%string).
  - reflexivity.
  - vm_compute. right. left. reflexivity.
  - reflexivity.
Defined.

Lemma ParsePEMs_dispatch_by_type_witness :
  ParsePEMs_switch Sample.lib (Sample.block "CERTIFICATE REQUEST" "3")
                   [AnyCertificate ["1"%byte]] =
    inl [AnyCertificate ["1"%byte]] /\
  ParsePEMs Sample.lib (Sample.text "C1Q3E4") =
    (Sample.results [AnyCertificate ["1"%byte]; AnyECPrivateKey ["4"%byte]], None).
Proof.
  destruct (ParsePEMs_dispatch_by_type unit Sample.lib
              (Sample.block "CERTIFICATE REQUEST" "3")
              [AnyCertificate ["1"%byte]]) as (_ & _ & _ & _ & H).
  destruct H as [Hskip Hinput]; try discriminate.
  split; [exact Hskip|].
  refine (proj2 (Hinput (Sample.text "C1Q3E4") (list_byte_of_string "C1Q3E4")
                   [Sample.block "CERTIFICATE" "1"]
                   [Sample.block "EC PRIVATE KEY" "4"] _ _) _ _ _).
  - reflexivity.
  - vm_compute. reflexivity.
  - vm_compute. reflexivity.
Defined.

Lemma ParsePEMs_preserves_order_witness :
  exists pemBytes,
    intoBytes (Sample.text "C1R2Q3E4Pe") = (pemBytes, None) /\
    map (fun o => Some (inl o))
        [AnyCertificate ["1"%byte]; AnyRSAPrivateKey ["2"%byte];
         AnyECPrivateKey ["4"%byte]; AnyECPrivateKey ["e"%byte]] =
    map (parse_block Sample.lib)
        (filter (fun der => recognized (Type_ der))
                (blocks Sample.lib pemBytes)).
Proof.
  apply (@ParsePEMs_preserves_order _ _ _ _ _ _ Sample.lib
           (Sample.text "C1R2Q3E4Pe")
           (Sample.results
              [AnyCertificate ["1"%byte]; AnyRSAPrivateKey ["2"%byte];
               AnyECPrivateKey ["4"%byte]; AnyECPrivateKey ["e"%byte]])).
  vm_compute. reflexivity.
Defined.


Lemma consume_empty_panics_witness :
  Interface (Sample.results []) = (Panic (IndexOutOfRange 0 0), Sample.results []) /\
  MustCertificate (Sample.results []) =
    (Panic (IndexOutOfRange 0 0), Sample.results []) /\
  MustRSAPrivateKey (Sample.results []) =
    (Panic (IndexOutOfRange 0 0), Sample.results []) /\
  MustECPrivateKey (Sample.results []) =
    (Panic (IndexOutOfRange 0 0), Sample.results []).
Proof. apply (consume_empty_panics (Sample.results [])). reflexivity. Defined.

(** The second [Interface] of the underrun test. *)
Example sample_underrun :
  Interface (snd (Interface (fst (ParsePEMs Sample.lib (Sample.text "E4"))))) =
  (Panic (IndexOutOfRange 0 0), Sample.results []).
Proof. vm_compute. reflexivity. Qed.

(** C3, as the claim words it, fails: on a result set that holds one EC key
    [MustRSAPrivateKey] panics, yet the receiver still holds the key, so its
    length has not gone down by one. *)
Lemma typed_accessor_mismatch_consumes_counterexample :
  fst (ParsePEMs Sample.lib (Sample.text "E4")) =
    Sample.results [AnyECPrivateKey ["4"%byte]] /\
  MustRSAPrivateKey (Sample.results [AnyECPrivateKey ["4"%byte]]) =
    (Panic (IsNotA (AnyECPrivateKey ["4"%byte]) " is not an rsa.PrivateKey"),
     Sample.results [AnyECPrivateKey ["4"%byte]]) /\
  Length (snd (MustRSAPrivateKey (Sample.results [AnyECPrivateKey ["4"%byte]])))
    <> Length (Sample.results [AnyECPrivateKey ["4"%byte]]) - 1.
Proof.
  split; [vm_compute; reflexivity|].
  split; [reflexivity|].
  vm_compute. discriminate.
Qed.

Lemma typed_accessor_mismatch_keeps_front_witness :
  (MustCertificate (Sample.results [AnyECPrivateKey ["4"%byte]]) =
     (Panic (IsNotA (AnyECPrivateKey ["4"%byte]) " is not an *x509.Certificate"),
      Sample.results [AnyECPrivateKey ["4"%byte]])) /\
  (MustRSAPrivateKey (Sample.results [AnyECPrivateKey ["4"%byte]]) =
     (Panic (IsNotA (AnyECPrivateKey ["4"%byte]) " is not an rsa.PrivateKey"),
      Sample.results [AnyECPrivateKey ["4"%byte]])).
Proof.
  destruct (@typed_accessor_mismatch_keeps_front _ _ _ _
              (Sample.results [AnyECPrivateKey ["4"%byte]])
              (AnyECPrivateKey ["4"%byte]) [] eq_refl) as (Hc & Hr & _).
  split; [apply Hc | apply Hr]; intros x; discriminate.
Defined.

(** C9, as the claim words it, fails: the result set of a PRIVATE KEY block
    whose key is neither RSA nor EC has a front object that no typed
    accessor removes and returns. *)
Lemma typed_accessor_for_generic_key_counterexample :
  ParsePEMs Sample.lib (Sample.text "Px") =
    (Sample.results [AnyOther ["x"%byte]], None) /\
  ~ (exists acc,
       In acc (typed_accessors (list byte) (list byte) (list byte) (list byte)) /\
       exists v, acc (Sample.results [AnyOther ["x"%byte]]) =
                 (Return v, Sample.results [])).
Proof.
  split; [vm_compute; reflexivity|].
  intros (acc & Hin & v & Hv).
  destruct Hin as [<-|[<-|[<-|[]]]]; discriminate Hv.
Qed.


(** A PKCS#8 block with an EC key, end to end. *)
Example sample_pkcs8_ec :
  MustECPrivateKey (fst (ParsePEMs Sample.lib (Sample.text "Pe"))) =
  (Return ["e"%byte], Sample.results []).
Proof. vm_compute. reflexivity. Qed.

(** ** Further properties of the package *)

Section MoreProperties.

Variables Certificate RSAPrivateKey ECPrivateKey OtherKey : Type.
Variable ExtError : Type.
Variable Foreign : Type.
Variable lib : Library Certificate RSAPrivateKey ECPrivateKey OtherKey ExtError.

Local Abbreviation obj := (any Certificate RSAPrivateKey ECPrivateKey OtherKey).
Local Abbreviation PEMs := (ParsedPEMs Certificate RSAPrivateKey ECPrivateKey OtherKey).
Local Abbreviation input := (input ExtError Foreign).

(** [pem.Decode] finds no block in an empty input: a remainder shorter than
    nothing does not exist. *)
Lemma Decode_nil : fst (Decode lib []) = None.
Proof.
  destruct (Decode lib []) as [[der|] rest] eqn:Hd; [|reflexivity].
  apply Decode_rest_shorter in Hd. simpl in Hd. lia.
Qed.

Lemma blocks_nil : blocks lib [] = [].
Proof.
  rewrite blocks_eq. pose proof Decode_nil as H.
  destruct (Decode lib []) as [[der|] rest]; [discriminate H | reflexivity].
Qed.

(** The loop meets at most one block for each byte of the input. *)
Lemma blocks_length (data : list byte) :
  length (blocks lib data) <= length data.
Proof.
  remember (length data) as n eqn:Hn. revert data Hn.
  induction n as [n IH] using lt_wf_ind; intros data Hn.
  rewrite blocks_eq.
  destruct (Decode lib data) as [[der|] rest] eqn:Hd; simpl; [|lia].
  apply Decode_rest_shorter in Hd.
  specialize (IH (length rest) ltac:(lia) rest eq_refl). lia.
Qed.

(** X1.  [ParsePEMs] returns either a result set with at least one object
    and no error, or an error together with the empty [ParsedPEMs{}]: never
    objects beside an error, whatever the error is. *)
Theorem ParsePEMs_results_or_error (pemInt : input) :
  (exists o l, ParsePEMs lib pemInt = (mkParsedPEMs (o :: l), None)) \/
  (exists err, ParsePEMs lib pemInt = (mkParsedPEMs [], Some err)).
Proof.
  rewrite ParsePEMs_blocks.
  destruct (intoBytes pemInt) as [pemBytes [err|]].
  - right. exists err. reflexivity.
  - destruct (collect lib (blocks lib pemBytes) []) as [[|o l]|err]; simpl.
    + right. eexists. reflexivity.
    + left. exists o, l. reflexivity.
    + right. exists err. reflexivity.
Qed.

(** X2.  An input without bytes - the empty byte slice, the empty string, a
    stream that ends without having delivered a byte - fails with
    [ErrPemIsUnsupportedType], with every decoder and every parser. *)
Theorem ParsePEMs_empty_input :
  ParsePEMs lib (InBytes [] : input) =
    (mkParsedPEMs [], Some ErrPemIsUnsupportedType) /\
  ParsePEMs lib (InString EmptyString : input) =
    (mkParsedPEMs [], Some ErrPemIsUnsupportedType) /\
  (forall r : Reader ExtError,
     failure r = None ->
     (forall chunk, In chunk (chunks r) -> chunk = []) ->
     ParsePEMs lib (InReader r : input) =
       (mkParsedPEMs [], Some ErrPemIsUnsupportedType)).
Proof.
  assert (H0 : forall pemInt : input,
             intoBytes pemInt = ([], None) ->
             ParsePEMs lib pemInt = (mkParsedPEMs [], Some ErrPemIsUnsupportedType)).
  { intros pemInt H. rewrite ParsePEMs_blocks, H, blocks_nil. reflexivity. }
  split; [|split].
  - apply H0. reflexivity.
  - apply H0. reflexivity.
  - intros r Hf Hc. apply H0. simpl. unfold ReadAll. rewrite Hf.
    f_equal. induction (chunks r) as [|c cs IH]; simpl; [reflexivity|].
    rewrite (Hc c (or_introl eq_refl)). simpl.
    apply IH. intros chunk Hin. apply Hc. right. exact Hin.
Qed.


(** X4.  After a successful [ParsePEMs], [Length] is the number of blocks of
    a recognized type in the input; it is at most the number of blocks, and
    that at most the number of bytes. *)
Theorem ParsePEMs_Length (pemInt : input) (p : PEMs) (pemBytes : list byte) :
  ParsePEMs lib pemInt = (p, None) ->
  intoBytes pemInt = (pemBytes, None) ->
  Length p =
    length (filter (fun der => recognized (Type_ der)) (blocks lib pemBytes)) /\
  Length p <= length (blocks lib pemBytes) /\
  length (blocks lib pemBytes) <= length pemBytes.
Proof.
  intros H Hb. rewrite ParsePEMs_blocks, Hb in H.
  apply finish_ok in H. destruct H as [H _].
  apply collect_inl in H. destruct H as (new & Hnew & Hmap).
  simpl in Hnew. subst new.
  apply (f_equal (@length _)) in Hmap. rewrite !length_map in Hmap.
  unfold Length. rewrite Hmap.
  split; [reflexivity|]. split; [apply filter_length_le | apply blocks_length].
Qed.

(** *** Consuming a result set *)

Lemma Interface_times_eq (n : nat) (p : PEMs) :
  Interface_times n p =
  (firstn n (objs p),
   if n <=? Length p then None else Some (IndexOutOfRange 0 0),
   mkParsedPEMs (skipn n (objs p))).
Proof.
  revert p. induction n as [|n IH]; intros [l]; simpl; [reflexivity|].
  unfold Interface, Length. simpl. destruct l as [|o tl]; [reflexivity|].
  rewrite IH. reflexivity.
Qed.

(** X5.  Calls of [Interface] in a row hand out the objects from the front,
    in their order: up to [Length] calls all succeed and leave the objects
    not yet handed out; with more calls than objects, every object is handed
    out, then comes the panic of the underrun, and the receiver is empty. *)
Theorem Interface_times_drains (n : nat) (p : PEMs) :
  (n <= Length p ->
   Interface_times n p =
     (firstn n (objs p), None, mkParsedPEMs (skipn n (objs p)))) /\
  (Length p < n ->
   Interface_times n p =
     (objs p, Some (IndexOutOfRange 0 0), mkParsedPEMs [])).
Proof.
  rewrite Interface_times_eq. unfold Length. split; intros H.
  - rewrite (proj2 (Nat.leb_le _ _) H). reflexivity.
  - rewrite (proj2 (Nat.leb_gt _ _) H).
    rewrite firstn_all2, skipn_all2 by lia. reflexivity.
Qed.

(** X6.  What a consumption method does to its receiver.  When it returns,
    the value returned was the front object (of the asserted type, for a
    typed accessor) and the receiver holds the objects behind it; when it
    panics, the receiver is as it was before the call. *)
Theorem consumption_frame (p p' : PEMs) :
  ((forall o, Interface p = (Return o, p') -> objs p = o :: objs p') /\
   (forall c, MustCertificate p = (Return c, p') ->
              objs p = AnyCertificate c :: objs p') /\
   (forall k, MustRSAPrivateKey p = (Return k, p') ->
              objs p = AnyRSAPrivateKey k :: objs p') /\
   (forall k, MustECPrivateKey p = (Return k, p') ->
              objs p = AnyECPrivateKey k :: objs p'))
  /\
  ((forall v, Interface p = (Panic v, p') -> p' = p) /\
   (forall v, MustCertificate p = (Panic v, p') -> p' = p) /\
   (forall v, MustRSAPrivateKey p = (Panic v, p') -> p' = p) /\
   (forall v, MustECPrivateKey p = (Panic v, p') -> p' = p)).
Proof.
  unfold Interface, MustCertificate, MustRSAPrivateKey, MustECPrivateKey.
  destruct p as [[|[c|k|k|k] tl]]; simpl;
    repeat match goal with |- _ /\ _ => split end;
    intros x H; inversion H; reflexivity.
Qed.

(** X7.  On any receiver at most one of the three typed accessors returns,
    and when one returns, [Interface] returns the same object on that
    receiver and leaves the same objects behind. *)
Theorem typed_accessors_exclusive (p : PEMs) :
  (forall c p', MustCertificate p = (Return c, p') ->
     Interface p = (Return (AnyCertificate c), p') /\
     (exists v, MustRSAPrivateKey p = (Panic v, p)) /\
     (exists v, MustECPrivateKey p = (Panic v, p)))
  /\
  (forall k p', MustRSAPrivateKey p = (Return k, p') ->
     Interface p = (Return (AnyRSAPrivateKey k), p') /\
     (exists v, MustCertificate p = (Panic v, p)) /\
     (exists v, MustECPrivateKey p = (Panic v, p)))
  /\
  (forall k p', MustECPrivateKey p = (Return k, p') ->
     Interface p = (Return (AnyECPrivateKey k), p') /\
     (exists v, MustCertificate p = (Panic v, p)) /\
     (exists v, MustRSAPrivateKey p = (Panic v, p))).
Proof.
  unfold Interface, MustCertificate, MustRSAPrivateKey, MustECPrivateKey.
  destruct p as [[|[c|k|k|k] tl]]; simpl;
    (split; [|split]); intros x p' H; inversion H; subst;
    (split; [reflexivity|]); split; eexists; reflexivity.
Qed.


(** *** The earlier form and the present one *)

Local Abbreviation wrap :=
  (@V1.mkParsedPEM Certificate RSAPrivateKey ECPrivateKey OtherKey).

Local Abbreviation wrapped := (@V1.wrapped Certificate RSAPrivateKey ECPrivateKey OtherKey ExtError).

Lemma V1_ParsePEM_loop_clause
      (rest : list byte)
      (objs : list (V1.ParsedPEM Certificate RSAPrivateKey ECPrivateKey OtherKey))
      (d : option Block * list byte) (H : Decode lib rest = d) :
  V1.ParsePEM_loop_unfold_clause_1 lib rest (exist _ d H) objs =
  match d with
  | (None, _) => inl objs
  | (Some der, rest') =>
      match V1.ParsePEM_switch lib der objs with
      | inr err => inr err
      | inl objs' => V1.ParsePEM_loop lib rest' objs'
      end
  end.
Proof.
  destruct d as [[der|] rest']; [|reflexivity].
  simpl. destruct (V1.ParsePEM_switch lib der objs); reflexivity.
Qed.

Lemma V1_ParsePEM_loop_eq
      (rest : list byte)
      (objs : list (V1.ParsedPEM Certificate RSAPrivateKey ECPrivateKey OtherKey)) :
  V1.ParsePEM_loop lib rest objs =
  match Decode lib rest with
  | (None, _) => inl objs
  | (Some der, rest') =>
      match V1.ParsePEM_switch lib der objs with
      | inr err => inr err
      | inl objs' => V1.ParsePEM_loop lib rest' objs'
      end
  end.
Proof. simp ParsePEM_loop. apply V1_ParsePEM_loop_clause. Qed.

Lemma V1_ParsePEM_switch_wrapped (der : Block) (objs : list obj) :
  V1.ParsePEM_switch lib der (map wrap objs) =
  wrapped (ParsePEMs_switch lib der objs).
Proof.
  unfold V1.ParsePEM_switch, ParsePEMs_switch, V1.wrapped.
  repeat match goal with
         | |- context [if ?b then _ else _] => destruct b
         | |- context [match ?f lib (Bytes der) with _ => _ end] =>
             destruct (f lib (Bytes der))
         end; rewrite ?map_app; reflexivity.
Qed.

Lemma V1_ParsePEM_loop_wrapped (rest : list byte) (objs : list obj) :
  V1.ParsePEM_loop lib rest (map wrap objs) =
  wrapped (ParsePEMs_loop lib rest objs).
Proof.
  remember (length rest) as n eqn:Hn.
  revert rest objs Hn.
  induction n as [n IH] using lt_wf_ind; intros rest objs Hn.
  rewrite V1_ParsePEM_loop_eq, ParsePEMs_loop_eq.
  destruct (Decode lib rest) as [[der|] rest'] eqn:Hdec; [|reflexivity].
  rewrite V1_ParsePEM_switch_wrapped.
  destruct (ParsePEMs_switch lib der objs) as [objs'|err]; simpl; [|reflexivity].
  apply (IH (length rest')); [|reflexivity].
  subst n. eapply Decode_rest_shorter; eassumption.
Qed.

Lemma V1_ParsePEM_of_bytes (pemBytes : list byte) :
  V1.ParsePEM lib (V1.InBytes (Some pemBytes) : V1.input Foreign) =
  (map wrap (objs (fst (ParsePEMs lib (InBytes pemBytes : input)))),
   snd (ParsePEMs lib (InBytes pemBytes : input))).
Proof.
  unfold V1.ParsePEM, ParsePEMs. simpl.
  change (@nil (V1.ParsedPEM Certificate RSAPrivateKey ECPrivateKey OtherKey))
    with (map wrap []) at 1.
  rewrite V1_ParsePEM_loop_wrapped.
  destruct (ParsePEMs_loop lib pemBytes []) as [l|err]; simpl; [|reflexivity].
  rewrite length_map. destruct (0 <? length l); reflexivity.
Qed.

(** X9.  On a string, and on a byte slice that is not [nil], the earlier
    [ParsePEM] and the present [ParsePEMs] agree: the same error, or the
    same objects in the same order, each in a [ParsedPEM] of its own. *)
Theorem V1_ParsePEM_agrees_with_ParsePEMs :
  (forall pemBytes : list byte,
     V1.ParsePEM lib (V1.InBytes (Some pemBytes) : V1.input Foreign) =
     (map wrap (objs (fst (ParsePEMs lib (InBytes pemBytes : input)))),
      snd (ParsePEMs lib (InBytes pemBytes : input))))
  /\
  (forall s : string,
     V1.ParsePEM lib (V1.InString s : V1.input Foreign) =
     (map wrap (objs (fst (ParsePEMs lib (InString s : input)))),
      snd (ParsePEMs lib (InString s : input)))).
Proof.
  split; [apply V1_ParsePEM_of_bytes|].
  intros s. exact (V1_ParsePEM_of_bytes (list_byte_of_string s)).
Qed.

(** X10.  The earlier [ParsePEM] fails with [ErrPemUnderlyingFormatError]
    exactly on the [nil] byte slice and on values that are neither byte
    slice nor string.  The empty slice that is not [nil], and the empty
    string, pass that test and fail with [ErrPemIsUnsupportedType]. *)
Theorem V1_ParsePEM_format_error (pemInt : V1.input Foreign) :
  (snd (V1.ParsePEM lib pemInt) = Some ErrPemUnderlyingFormatError <->
   pemInt = V1.InBytes None \/ exists v, pemInt = V1.InOther v)
  /\
  V1.ParsePEM lib (V1.InBytes (Some []) : V1.input Foreign) =
    ([], Some ErrPemIsUnsupportedType)
  /\
  V1.ParsePEM lib (V1.InString EmptyString : V1.input Foreign) =
    ([], Some ErrPemIsUnsupportedType).
Proof.
  assert (Hb : forall pemBytes,
             snd (V1.ParsePEM lib (V1.InBytes (Some pemBytes) : V1.input Foreign))
               <> Some ErrPemUnderlyingFormatError).
  { intros pemBytes. rewrite V1_ParsePEM_of_bytes. simpl.
    rewrite ParsePEMs_blocks. simpl.
    destruct (collect lib (blocks lib pemBytes) []) as [l|err] eqn:Hc; simpl.
    - destruct (0 <? length l); discriminate.
    - apply collect_inr in Hc.
      destruct Hc as (_ & _ & _ & e & _ & _ & _ & ->). discriminate. }
  assert (He : V1.ParsePEM lib (V1.InBytes (Some []) : V1.input Foreign) =
               ([], Some ErrPemIsUnsupportedType)).
  { rewrite V1_ParsePEM_of_bytes, ParsePEMs_blocks. simpl.
    rewrite blocks_nil. reflexivity. }
  split; [|split; [exact He | exact He]].
  split.
  - destruct pemInt as [[b|]|s|v].
    + intros H. exfalso. exact (Hb _ H).
    + intros _. left. reflexivity.
    + intros H. exfalso. exact (Hb (list_byte_of_string s) H).
    + intros _. right. exists v. reflexivity.
  - intros [->|[v ->]]; reflexivity.
Qed.

(** X11.  Reading by index in the earlier form and consuming in the present
    one meet: the accessors of the earlier form, on the object at index [i],
    give what the accessors of the present form give after [i] calls of
    [Interface] - the same value, or a panic with the same message. *)
Theorem V1_accessors_agree_with_consumption
        (l : list obj) (i : nat) (o : obj) :
  nth_error l i = Some o ->
  Return (V1.Interface (wrap o)) =
    fst (Interface (snd (Interface_times i (mkParsedPEMs l)))) /\
  V1.MustCertificate (wrap o) =
    fst (MustCertificate (snd (Interface_times i (mkParsedPEMs l)))) /\
  V1.MustRSAPrivateKey (wrap o) =
    fst (MustRSAPrivateKey (snd (Interface_times i (mkParsedPEMs l)))) /\
  V1.MustECPrivateKey (wrap o) =
    fst (MustECPrivateKey (snd (Interface_times i (mkParsedPEMs l)))).
Proof.
  intros Hi. rewrite Interface_times_eq. simpl.
  assert (Hs : exists tl, skipn i l = o :: tl).
  { revert i Hi. induction l as [|a l IH]; intros [|i] Hi; simpl in *;
      try discriminate.
    - inversion Hi. exists l. reflexivity.
    - apply IH, Hi. }
  destruct Hs as [tl Hs].
  unfold Interface, MustCertificate, MustRSAPrivateKey, MustECPrivateKey,
    V1.Interface, V1.MustCertificate, V1.MustRSAPrivateKey, V1.MustECPrivateKey.
  simpl. rewrite Hs.
  destruct o as [c|k|k|k]; repeat split.
Qed.

End MoreProperties.

(** ** The further properties on the sample library *)

Lemma ParsePEMs_Length_witness :
  Length (Sample.results
            [AnyCertificate ["1"%byte]; AnyRSAPrivateKey ["2"%byte];
             AnyECPrivateKey ["4"%byte]; AnyECPrivateKey ["e"%byte]]) =
    length (filter (fun der => recognized (Type_ der))
                   (blocks Sample.lib (list_byte_of_string "C1R2Q3E4Pe"))) /\
  Length (Sample.results
            [AnyCertificate ["1"%byte]; AnyRSAPrivateKey ["2"%byte];
             AnyECPrivateKey ["4"%byte]; AnyECPrivateKey ["e"%byte]]) <=
    length (blocks Sample.lib (list_byte_of_string "C1R2Q3E4Pe")) /\
  length (blocks Sample.lib (list_byte_of_string "C1R2Q3E4Pe")) <=
    length (list_byte_of_string "C1R2Q3E4Pe").
Proof.
  apply (@ParsePEMs_Length _ _ _ _ _ _ Sample.lib (Sample.text "C1R2Q3E4Pe")).
  - vm_compute. reflexivity.
  - reflexivity.
Defined.


Lemma V1_accessors_agree_with_consumption_witness :
  V1.MustECPrivateKey (V1.mkParsedPEM (AnyECPrivateKey ["4"%byte] : Sample.obj)) =
  fst (MustECPrivateKey
         (snd (Interface_times 2
                 (Sample.results
                    [AnyCertificate ["1"%byte]; AnyRSAPrivateKey ["2"%byte];
                     AnyECPrivateKey ["4"%byte]])))).
Proof.
  apply (@V1_accessors_agree_with_consumption _ _ _ _
           [AnyCertificate ["1"%byte]; AnyRSAPrivateKey ["2"%byte];
            AnyECPrivateKey ["4"%byte]] 2 (AnyECPrivateKey ["4"%byte])).
  reflexivity.
Defined.

(** The earlier form on the scenario of its test suite. *)
Example sample_run_V1 :
  V1.ParsePEM Sample.lib (V1.InString "C1R2Q3E4" : V1.input unit) =
  (map (@V1.mkParsedPEM _ _ _ _)
       [AnyCertificate ["1"%byte]; AnyRSAPrivateKey ["2"%byte];
        AnyECPrivateKey ["4"%byte]], None).
Proof. vm_compute. reflexivity. Qed.
